(** * The task list of ToDo/App.tsx

    A shallow embedding of the state logic of the [TodoApp] component
    (src/ToDo/App.tsx): the [Todo] record, the handlers that update the
    [todos] state ([addTodo], [toggleTodo], [deleteTodo], [clearCompleted],
    [saveEdit]) and the values derived from it on every render ([filtered],
    [remaining], [completionPct]).

    React's [useState] is rendered as explicit state passing: a handler is a
    function of the state variables its closure reads and of the previous
    list [prev] handed to the updater given to [setTodos]; it returns the
    next list.  [Date.now()] is an input of the handler that calls it. *)

From Stdlib Require Import List ZArith NArith QArith Bool Lia.
From Stdlib Require Import Ascii String DecimalZ DecimalPos.
Import ListNotations.

Local Open Scope Z_scope.

(** ** JavaScript strings *)

(** A JavaScript string is a sequence of UTF-16 code units. *)
Definition JsString : Type := list N.

(** The code units of an ASCII literal of the source. *)
Definition js (s : string) : JsString :=
  List.map N_of_ascii (list_ascii_of_string s).

Definition str_eq_dec : forall a b : JsString, {a = b} + {a <> b} :=
  list_eq_dec N.eq_dec.

(** [a === b] on strings. *)
Definition str_eq (a b : JsString) : bool :=
  if str_eq_dec a b then true else false.

(** Truthiness of a string: only [''] is falsy. *)
Definition truthy (s : JsString) : bool :=
  match s with [] => false | _ :: _ => true end.

(** WhiteSpace and LineTerminator code points of ECMAScript, all of them in
    the Basic Multilingual Plane and so one code unit each: TAB, LF, VT, FF,
    CR, SP, NBSP, U+1680, U+2000..U+200A, LS, PS, U+202F, U+205F, U+3000 and
    the byte order mark. *)
Definition is_white_space (c : N) : bool :=
  ((9 <=? c) && (c <=? 13) || (c =? 32) || (c =? 160) || (c =? 5760)
   || (8192 <=? c) && (c <=? 8202) || (c =? 8232) || (c =? 8233)
   || (c =? 8239) || (c =? 8287) || (c =? 12288) || (c =? 65279))%N.

Fixpoint trimStart (s : JsString) : JsString :=
  match s with
  | [] => []
  | c :: s' => if is_white_space c then trimStart s' else s
  end.

Definition trimEnd (s : JsString) : JsString :=
  rev (trimStart (rev s)).

(** [String.prototype.trim]. *)
Definition trim (s : JsString) : JsString := trimEnd (trimStart s).

(** [p] is a prefix of [s]. *)
Fixpoint startsWith (s p : JsString) {struct p} : bool :=
  match p, s with
  | [], _ => true
  | _ :: _, [] => false
  | c :: p', d :: s' => (c =? d)%N && startsWith s' p'
  end.

(** [String.prototype.includes]: [p] occurs in [s] at some position. *)
Fixpoint includes (s p : JsString) : bool :=
  startsWith s p ||
  match s with
  | [] => false
  | _ :: s' => includes s' p
  end.

(** The code units of a string of decimal digits. *)
Fixpoint digits (d : Decimal.uint) : JsString :=
  match d with
  | Decimal.Nil => []
  | Decimal.D0 d => 48%N :: digits d
  | Decimal.D1 d => 49%N :: digits d
  | Decimal.D2 d => 50%N :: digits d
  | Decimal.D3 d => 51%N :: digits d
  | Decimal.D4 d => 52%N :: digits d
  | Decimal.D5 d => 53%N :: digits d
  | Decimal.D6 d => 54%N :: digits d
  | Decimal.D7 d => 55%N :: digits d
  | Decimal.D8 d => 56%N :: digits d
  | Decimal.D9 d => 57%N :: digits d
  end.

(** [Number.prototype.toString] on an integral Number below 10^21 in
    magnitude, which covers every time value [Date.now()] can return:
    the decimal digits, after a minus sign when negative. *)
Definition toString (n : Z) : JsString :=
  match Z.to_int n with
  | Decimal.Pos d => digits d
  | Decimal.Neg d => 45%N :: digits d
  end.

(** ** The data of the component *)

Inductive Priority : Type := high | medium | low.

Record Todo : Type := mkTodo {
  id : JsString;
  text : JsString;
  completed : bool;
  priority : Priority;
  createdAt : Z
}.

Module Filter.
Inductive t : Type := all | active | completed.
End Filter.

(** The object spreads of the handlers. *)
Definition with_completed (t : Todo) (b : bool) : Todo :=
  mkTodo (id t) (text t) b (priority t) (createdAt t).

Definition with_text (t : Todo) (s : JsString) : Todo :=
  mkTodo (id t) s (completed t) (priority t) (createdAt t).

(** ** Handlers *)

(** [addTodo]: [now_id] and [now_created] are the two readings of
    [Date.now()] taken while the new object is built.  The handler also
    empties [input] and dismisses the keyboard, which leaves [todos] as it
    is. *)
Definition addTodo (now_id now_created : Z) (input : JsString)
    (priority : Priority) (prev : list Todo) : list Todo :=
  let text := trim input in
  if negb (truthy text) then prev
  else mkTodo (toString now_id) text false priority now_created :: prev.

Definition toggleTodo (id0 : JsString) (prev : list Todo) : list Todo :=
  List.map (fun t => if str_eq (id t) id0
                     then with_completed t (negb (completed t)) else t) prev.

Definition deleteTodo (id0 : JsString) (prev : list Todo) : list Todo :=
  List.filter (fun t => negb (str_eq (id t) id0)) prev.

(** The two buttons of the alert that [clearCompleted] opens. *)
Inductive AlertButton : Type := Cancel | Clear.

Definition clearCompleted (pressed : AlertButton) (prev : list Todo)
    : list Todo :=
  match pressed with
  | Cancel => prev
  | Clear => List.filter (fun t => negb (completed t)) prev
  end.

(** [saveEdit] reads [editingId] and [editText]; it returns the next list
    and the next [editingId]. *)
Definition saveEdit (editingId : option JsString) (editText : JsString)
    (prev : list Todo) : list Todo * option JsString :=
  match editingId with
  | Some eid =>
      if truthy eid then
        let text := trim editText in
        (if truthy text
         then List.map (fun t => if str_eq (id t) eid
                                 then with_text t text else t) prev
         else prev,
         None)
      else (prev, editingId)
  | None => (prev, editingId)
  end.

(** ** Derived values *)

(** The values of a JavaScript Number that a quotient of two integers can
    take.  A finite quotient is kept as the exact rational; the engine
    rounds it to the nearest binary64 value. *)
Inductive JsNumber : Type :=
| NaN
| Infinity (negative : bool)
| Num (q : Q).

(** [a / b] on integral Numbers. *)
Definition js_div (a b : Z) : JsNumber :=
  if b =? 0 then (if a =? 0 then NaN else Infinity (a <? 0))
  else Num (inject_Z a / inject_Z b).

Section Derived.

(** [String.prototype.toLowerCase] is the engine's Unicode lower-casing;
    the component only needs it to be a function on strings. *)
Variable toLowerCase : JsString -> JsString.

Definition filtered (todos : list Todo) (filter : Filter.t)
    (search : JsString) : list Todo :=
  List.filter
    (fun t =>
       let matchesFilter :=
         match filter with
         | Filter.active => negb (completed t)
         | Filter.completed => completed t
         | Filter.all => true
         end in
       let matchesSearch :=
         str_eq search [] ||
         includes (toLowerCase (text t)) (toLowerCase search) in
       matchesFilter && matchesSearch)
    todos.

End Derived.

Definition remaining (todos : list Todo) : nat :=
  List.length (List.filter (fun t => negb (completed t)) todos).

Definition completionPct (todos : list Todo) : JsNumber :=
  if (0 <? List.length todos)%nat
  then js_div (Z.of_nat (List.length todos) - Z.of_nat (remaining todos))
              (Z.of_nat (List.length todos))
  else Num 0.

(** [toLowerCase] on strings of Basic Latin letters, digits and
    punctuation, where it maps A..Z to a..z and keeps the rest. *)
Definition toLowerCase_ascii (s : JsString) : JsString :=
  List.map (fun c => if (65 <=? c)%N && (c <=? 90)%N then (c + 32)%N else c) s.

(** ** Runs of the store *)

(** The operations on the list: the five handlers, with what each one reads
    from the rest of the state as an argument. *)
Inductive Op : Type :=
| Add (now_id now_created : Z) (input : JsString) (p : Priority)
| Toggle (id0 : JsString)
| Delete (id0 : JsString)
| EditText (id0 : JsString) (newText : JsString)
| ClearCompleted.

Definition apply (o : Op) (prev : list Todo) : list Todo :=
  match o with
  | Add now_id now_created input p => addTodo now_id now_created input p prev
  | Toggle id0 => toggleTodo id0 prev
  | Delete id0 => deleteTodo id0 prev
  | EditText id0 newText => fst (saveEdit (Some id0) newText prev)
  | ClearCompleted => clearCompleted Clear prev
  end.

(** The list after [ops], in order, from [start]. *)
Definition run_from (start : list Todo) (ops : list Op) : list Todo :=
  fold_left (fun l o => apply o l) ops start.

(** The list starts empty ([useState<Todo[]>([])]). *)
Definition run (ops : list Op) : list Todo := run_from [] ops.

(** The readings of the clock that became ids: one for each [Add] that got
    past the guard on the trimmed input, oldest first. *)
Fixpoint id_clock (ops : list Op) : list Z :=
  match ops with
  | [] => []
  | Add now_id _ input _ :: ops' =>
      if truthy (trim input) then now_id :: id_clock ops' else id_clock ops'
  | _ :: ops' => id_clock ops'
  end.

(** The ids handed out by the [Add]s of a run, oldest first. *)
Definition assigned (ops : list Op) : list JsString :=
  List.map toString (id_clock ops).

Definition ids (todos : list Todo) : list JsString := List.map id todos.

(** ** Vocabulary of the specification *)

(** [r] is [l] with exactly the elements that satisfy [P] kept, each at its
    place relative to the others. *)
Inductive selection {A : Type} (P : A -> Prop) : list A -> list A -> Prop :=
| selection_nil : selection P [] []
| selection_keep x l r : P x -> selection P l r -> selection P (x :: l) (x :: r)
| selection_drop x l r : ~ P x -> selection P l r -> selection P (x :: l) r.

(** [p] occurs in [s] as a run of consecutive code units. *)
Definition substring (p s : JsString) : Prop :=
  exists pre suf, s = pre ++ p ++ suf.

(** Filter stage of the view, in the words of the specification. *)
Definition passes_filter (f : Filter.t) (t : Todo) : Prop :=
  f = Filter.all \/
  (f = Filter.active /\ completed t = false) \/
  (f = Filter.completed /\ completed t = true).

(** Search stage of the view, in the words of the specification. *)
Definition passes_search (fold : JsString -> JsString) (search : JsString)
    (t : Todo) : Prop :=
  search = [] \/ substring (fold search) (fold (text t)).

(** Number of positions at which the [completed] flags of two lists
    differ. *)
Definition flipped (before after : list Todo) : nat :=
  List.length
    (List.filter (fun ab => xorb (completed (fst ab)) (completed (snd ab)))
                 (combine before after)).

(** The tasks of a list that are done. *)
Definition done (todos : list Todo) : nat :=
  count_occ bool_dec (List.map completed todos) true.

(** The tasks of a list that are still to do. *)
Definition not_done (todos : list Todo) : nat :=
  count_occ bool_dec (List.map completed todos) false.

(** ** Sample runs *)

(** A reading of the clock, in milliseconds since the epoch. *)
Definition tick : Z := 1700000000000.

(** Two tasks added while the clock shows the same millisecond. *)
Definition same_tick : list Op :=
  [Add tick tick (js "milk") medium; Add tick tick (js "eggs") low].

Definition milk : Todo := mkTodo (toString tick) (js "milk") false medium tick.
Definition eggs : Todo := mkTodo (toString tick) (js "eggs") false low tick.

(** The scenarios of the specification. *)
Definition buy_milk : Todo := mkTodo (js "1") (js "Buy milk") false medium 1.
Definition walk_dog : Todo := mkTodo (js "2") (js "Walk dog") true low 2.

(** ** The rest of the screen *)

(** A row shows the text input instead of the text when
    [editingId === item.id]. *)
Definition isEditing (editingId : option JsString) (item : Todo) : bool :=
  match editingId with
  | Some eid => str_eq eid (id item)
  | None => false
  end.

(** [todos.some(t => t.completed)]: the footer shows "Clear completed". *)
Definition someCompleted (todos : list Todo) : bool :=
  existsb completed todos.

(** [todos.length - remaining], the count in the header. *)
Definition completedCount (todos : list Todo) : Z :=
  Z.of_nat (List.length todos) - Z.of_nat (remaining todos).

(** The text of [ListEmptyComponent], which the list shows when [filtered]
    is empty. *)
Definition emptyMessage (search : JsString) (filter : Filter.t) : JsString :=
  if truthy search then js "No matching tasks."
  else match filter with
       | Filter.completed => js "No completed tasks yet."
       | Filter.active => js "Nothing left to do!"
       | Filter.all => js "Add your first task above."
       end.

(** A Number with the finite value [q]. *)
Definition is_num (x : JsNumber) (q : Q) : Prop :=
  match x with
  | Num r => (r == q)%Q
  | _ => False
  end.

(** A task as the handlers leave it: an id and a text that are not empty,
    the text without white space at its ends. *)
Definition tidy (t : Todo) : Prop :=
  id t <> [] /\ text t <> [] /\ trim (text t) = text t.

(** The component [TodoApp]: its seven state variables, the handlers as
    functions from state to state, and the events its screen delivers. *)
Module TodoApp.

Record State : Type := mkState {
  todos : list Todo;
  input : JsString;
  filter : Filter.t;
  priority : Priority;
  search : JsString;
  editingId : option JsString;
  editText : JsString
}.

(** The initial values given to [useState]. *)
Definition init : State := mkState [] [] Filter.all medium [] None [].

Definition setTodos (f : list Todo -> list Todo) (s : State) : State :=
  mkState (f (todos s)) (input s) (filter s) (priority s) (search s)
          (editingId s) (editText s).

Definition setInput (v : JsString) (s : State) : State :=
  mkState (todos s) v (filter s) (priority s) (search s)
          (editingId s) (editText s).

Definition setFilter (v : Filter.t) (s : State) : State :=
  mkState (todos s) (input s) v (priority s) (search s)
          (editingId s) (editText s).

Definition setPriority (v : Priority) (s : State) : State :=
  mkState (todos s) (input s) (filter s) v (search s)
          (editingId s) (editText s).

Definition setSearch (v : JsString) (s : State) : State :=
  mkState (todos s) (input s) (filter s) (priority s) v
          (editingId s) (editText s).

Definition setEditingId (v : option JsString) (s : State) : State :=
  mkState (todos s) (input s) (filter s) (priority s) (search s)
          v (editText s).

Definition setEditText (v : JsString) (s : State) : State :=
  mkState (todos s) (input s) (filter s) (priority s) (search s)
          (editingId s) v.

Definition addTodo (now_id now_created : Z) (s : State) : State :=
  let text := trim (input s) in
  if negb (truthy text) then s
  else
    setInput []
      (setTodos
         (fun prev =>
            mkTodo (toString now_id) text false (priority s) now_created
            :: prev)
         s).

Definition toggleTodo (id0 : JsString) (s : State) : State :=
  setTodos
    (fun prev =>
       List.map (fun t => if str_eq (id t) id0
                          then with_completed t (negb (completed t)) else t)
                prev)
    s.

Definition deleteTodo (id0 : JsString) (s : State) : State :=
  setTodos (fun prev => List.filter (fun t => negb (str_eq (id t) id0)) prev) s.

Definition clearCompleted (pressed : AlertButton) (s : State) : State :=
  match pressed with
  | Cancel => s
  | Clear =>
      setTodos (fun prev => List.filter (fun t => negb (completed t)) prev) s
  end.

Definition startEdit (todo : Todo) (s : State) : State :=
  setEditText (text todo) (setEditingId (Some (id todo)) s).

Definition saveEdit (s : State) : State :=
  match editingId s with
  | Some eid =>
      if truthy eid then
        let text := trim (editText s) in
        setEditingId None
          (if truthy text
           then setTodos
                  (fun prev =>
                     List.map (fun t => if str_eq (id t) eid
                                        then with_text t text else t)
                              prev)
                  s
           else s)
      else s
  | None => s
  end.

(** What the user can do on the screen.  A row is named by its index in
    the list on display. *)
Inductive Event : Type :=
| ChangeInput (t : JsString)
| SubmitInput (now_id now_created : Z)
| PressPriority (p : Priority)
| ChangeSearch (t : JsString)
| ClearSearch
| PressFilter (f : Filter.t)
| PressToggle (row : nat)
| PressDelete (row : nat)
| LongPress (row : nat)
| ChangeEditText (row : nat) (t : JsString)
| EndEdit (row : nat)
| PressClearCompleted (pressed : AlertButton).

Section Screen.

Variable toLowerCase : JsString -> JsString.

(** The [data] of the list: [filtered] for the current state. *)
Definition data (s : State) : list Todo :=
  filtered toLowerCase (todos s) (filter s) (search s).

(** The handler the screen wires to each event.  The clear button of the
    search bar is there when [search.length > 0], "Clear completed" when
    some task is completed, the long press on a row that is not being
    edited, the text input on a row that is; an event the screen does not
    offer changes nothing. *)
Definition handle (e : Event) (s : State) : State :=
  match e with
  | ChangeInput t => setInput t s
  | SubmitInput now_id now_created => addTodo now_id now_created s
  | PressPriority p => setPriority p s
  | ChangeSearch t => setSearch t s
  | ClearSearch => if truthy (search s) then setSearch [] s else s
  | PressFilter f => setFilter f s
  | PressToggle row =>
      match nth_error (data s) row with
      | Some item => toggleTodo (id item) s
      | None => s
      end
  | PressDelete row =>
      match nth_error (data s) row with
      | Some item => deleteTodo (id item) s
      | None => s
      end
  | LongPress row =>
      match nth_error (data s) row with
      | Some item =>
          if isEditing (editingId s) item then s else startEdit item s
      | None => s
      end
  | ChangeEditText row t =>
      match nth_error (data s) row with
      | Some item =>
          if isEditing (editingId s) item then setEditText t s else s
      | None => s
      end
  | EndEdit row =>
      match nth_error (data s) row with
      | Some item => if isEditing (editingId s) item then saveEdit s else s
      | None => s
      end
  | PressClearCompleted pressed =>
      if someCompleted (todos s) then clearCompleted pressed s else s
  end.

(** The state after the events, in order, from [s]. *)
Definition run_from (s : State) (events : list Event) : State :=
  fold_left (fun s e => handle e s) events s.

Definition run (events : list Event) : State := run_from init events.

(** The operation on the list that an event amounts to, if any. *)
Definition op_of (s : State) (e : Event) : option Op :=
  match e with
  | SubmitInput now_id now_created =>
      Some (Add now_id now_created (input s) (priority s))
  | PressToggle row =>
      option_map (fun item => Toggle (id item)) (nth_error (data s) row)
  | PressDelete row =>
      option_map (fun item => Delete (id item)) (nth_error (data s) row)
  | EndEdit row =>
      match nth_error (data s) row, editingId s with
      | Some item, Some eid =>
          if isEditing (editingId s) item
          then Some (EditText eid (editText s)) else None
      | _, _ => None
      end
  | PressClearCompleted Clear =>
      if someCompleted (todos s) then Some ClearCompleted else None
  | _ => None
  end.

(** The operations on the list that a sequence of events amounts to. *)
Fixpoint trace (s : State) (events : list Event) : list Op :=
  match events with
  | [] => []
  | e :: events' =>
      match op_of s e with
      | Some o => o :: trace (handle e s) events'
      | None => trace (handle e s) events'
      end
  end.

End Screen.

End TodoApp.

(** * Properties *)

(** ** Strings *)

Lemma str_eq_true (a b : JsString) : str_eq a b = true <-> a = b.
Proof.
  unfold str_eq. destruct (str_eq_dec a b); split; congruence.
Qed.

Lemma str_eq_false (a b : JsString) : str_eq a b = false <-> a <> b.
Proof.
  unfold str_eq. destruct (str_eq_dec a b); split; congruence.
Qed.

Lemma str_eq_refl (a : JsString) : str_eq a a = true.
Proof. now apply str_eq_true. Qed.

Lemma truthy_false (s : JsString) : truthy s = false <-> s = [].
Proof. destruct s; simpl; split; congruence. Qed.

Lemma truthy_true (s : JsString) : truthy s = true <-> s <> [].
Proof. destruct s; simpl; split; congruence. Qed.

Lemma startsWith_prefix (s p : JsString) :
  startsWith s p = true <-> exists suf, s = p ++ suf.
Proof.
  revert s. induction p as [|c p IH]; intros s; simpl.
  - split; [intros _; now exists s | reflexivity].
  - destruct s as [|d s].
    + split; [discriminate | intros [suf H]; discriminate H].
    + rewrite andb_true_iff, N.eqb_eq, IH. split.
      * intros [-> [suf ->]]. now exists suf.
      * intros [suf H]. injection H as -> ->. split; [reflexivity | now exists suf].
Qed.

Lemma includes_substring (s p : JsString) :
  includes s p = true <-> substring p s.
Proof.
  unfold substring. induction s as [|d s IH]; simpl.
  - rewrite orb_false_r, startsWith_prefix. split.
    + intros [suf H]. now exists [], suf.
    + intros [pre [suf H]]. destruct pre; [now exists suf | discriminate H].
  - rewrite orb_true_iff, IH, startsWith_prefix. split.
    + intros [[suf H] | [pre [suf H]]].
      * now exists [], suf.
      * exists (d :: pre), suf. now rewrite H.
    + intros [[|e pre] [suf H]].
      * left. now exists suf.
      * right. injection H as _ H. now exists pre, suf.
Qed.

Lemma digits_inj (d e : Decimal.uint) : digits d = digits e -> d = e.
Proof.
  revert e. induction d; intros [] H; simpl in H;
    try reflexivity; try discriminate H;
    injection H as H; f_equal; now apply IHd.
Qed.

Lemma digits_no_minus (d : Decimal.uint) (s : JsString) :
  digits d <> 45%N :: s.
Proof. destruct d; simpl; congruence. Qed.

(** Distinct clock readings print as distinct strings. *)
Lemma toString_inj (n m : Z) : toString n = toString m -> n = m.
Proof.
  unfold toString. intros H. apply DecimalZ.to_int_inj.
  destruct (Z.to_int n) as [d|d], (Z.to_int m) as [e|e].
  - f_equal. now apply digits_inj.
  - now apply digits_no_minus in H.
  - symmetry in H. now apply digits_no_minus in H.
  - injection H as H. f_equal. now apply digits_inj.
Qed.

Lemma toString_nonempty (n : Z) : toString n <> [].
Proof.
  unfold toString. destruct n as [|p|p]; simpl; try discriminate.
  unfold Pos.to_int.
  pose proof (DecimalPos.Unsigned.to_uint_nonnil p) as H.
  destruct (Pos.to_uint p); simpl; congruence.
Qed.

(** ** Trimming *)

Lemma trimStart_split (s : JsString) :
  exists pre, s = pre ++ trimStart s /\ forallb is_white_space pre = true.
Proof.
  induction s as [|c s [pre [Hs Hpre]]]; simpl.
  - now exists [].
  - destruct (is_white_space c) eqn:Hc.
    + exists (c :: pre). simpl. rewrite Hc, Hpre. split; [congruence | reflexivity].
    + now exists [].
Qed.

Lemma trimStart_head (s r : JsString) (c : N) :
  trimStart s = c :: r -> is_white_space c = false.
Proof.
  induction s as [|d s IH]; simpl; [discriminate|].
  destruct (is_white_space d) eqn:Hd; [exact IH|].
  intros H. injection H as -> _. exact Hd.
Qed.

Lemma trimStart_blank (s : JsString) :
  trimStart s = [] <-> forallb is_white_space s = true.
Proof.
  induction s as [|c s IH]; simpl; [tauto|].
  destruct (is_white_space c); simpl; [exact IH|].
  split; discriminate.
Qed.

Lemma forallb_rev (f : N -> bool) (s : JsString) :
  forallb f (rev s) = forallb f s.
Proof.
  induction s as [|c s IH]; simpl; [reflexivity|].
  rewrite forallb_app, IH. simpl. rewrite andb_true_r. apply andb_comm.
Qed.

(** The trimmed string is empty exactly when the string is blank. *)
Lemma trim_blank (s : JsString) :
  trim s = [] <-> forallb is_white_space s = true.
Proof.
  unfold trim, trimEnd. rewrite <- trimStart_blank. split.
  - intros H. apply (f_equal (@rev N)) in H. rewrite rev_involutive in H.
    simpl in H. apply trimStart_blank in H. rewrite forallb_rev in H.
    destruct (trimStart s) as [|c r] eqn:Hs; [reflexivity|].
    apply trimStart_head in Hs. simpl in H. now rewrite Hs in H.
  - intros ->. reflexivity.
Qed.

(** Trimming removes a run of white space at each end and nothing else. *)
Lemma trim_split (s : JsString) :
  exists pre post,
    s = pre ++ trim s ++ post /\
    forallb is_white_space pre = true /\ forallb is_white_space post = true.
Proof.
  unfold trim, trimEnd.
  destruct (trimStart_split s) as [pre [Hs Hpre]].
  destruct (trimStart_split (rev (trimStart s))) as [post [Hr Hpost]].
  exists pre, (rev post). repeat split.
  - rewrite <- rev_app_distr, <- Hr, rev_involutive. exact Hs.
  - exact Hpre.
  - now rewrite forallb_rev.
Qed.

(** Neither end of a trimmed string is white space. *)
Lemma trim_ends (s : JsString) :
  (forall c r, trim s = c :: r -> is_white_space c = false) /\
  (forall c r, trim s = r ++ [c] -> is_white_space c = false).
Proof.
  split; intros c r H.
  - unfold trim, trimEnd in H.
    destruct (trimStart s) as [|d u] eqn:Hs; [discriminate H|].
    pose proof (trimStart_head _ _ _ Hs) as Hd.
    destruct (trimStart_split (rev (d :: u))) as [pre [Hr _]].
    apply (f_equal (@rev N)) in Hr.
    rewrite rev_involutive, rev_app_distr, H in Hr.
    simpl in Hr. now injection Hr as <- _.
  - unfold trim, trimEnd in H.
    apply (f_equal (@rev N)) in H.
    rewrite rev_involutive, rev_app_distr in H. simpl in H.
    now apply trimStart_head in H.
Qed.

(** ** Lists of tasks *)

Lemma in_ids_split (id0 : JsString) (l : list Todo) :
  In id0 (ids l) ->
  exists l1 t l2, l = l1 ++ t :: l2 /\ id t = id0.
Proof.
  unfold ids. intros H. apply in_map_iff in H as [t [Ht Hin]].
  apply in_split in Hin as [l1 [l2 ->]]. now exists l1, t, l2.
Qed.

Lemma ids_app (l1 l2 : list Todo) : ids (l1 ++ l2) = ids l1 ++ ids l2.
Proof. apply map_app. Qed.

(** In a list without repeated ids, the tasks around a task have other
    ids. *)
Lemma unique_id_elsewhere (l1 l2 : list Todo) (t : Todo) :
  NoDup (ids (l1 ++ t :: l2)) ->
  ~ In (id t) (ids l1) /\ ~ In (id t) (ids l2).
Proof.
  rewrite ids_app. simpl. intros H. apply NoDup_remove_2 in H.
  rewrite in_app_iff in H. tauto.
Qed.

Lemma selection_filter {A : Type} (P : A -> Prop) (f : A -> bool) :
  (forall x, f x = true <-> P x) ->
  forall l, selection P l (List.filter f l).
Proof.
  intros Hf l. induction l as [|x l IH]; simpl.
  - constructor.
  - destruct (f x) eqn:Hx.
    + apply selection_keep; [now apply Hf | exact IH].
    + apply selection_drop; [|exact IH].
      intros HP. apply Hf in HP. congruence.
Qed.

(** A selection is determined by the list and the property. *)
Lemma selection_unique {A : Type} (P : A -> Prop) (l r1 r2 : list A) :
  selection P l r1 -> selection P l r2 -> r1 = r2.
Proof.
  intros H1. revert r2.
  induction H1; intros r2 H2; inversion H2; subst;
    try reflexivity; try contradiction.
  - f_equal. now apply IHselection.
  - now apply IHselection.
Qed.

Lemma selection_In {A : Type} (P : A -> Prop) (l r : list A) :
  selection P l r -> forall x, In x r <-> In x l /\ P x.
Proof.
  induction 1 as [|x l r HP _ IH|x l r HP _ IH]; intros y; simpl.
  - tauto.
  - rewrite IH. split.
    + intros [<- | [? ?]]; tauto.
    + intros [[<- | ?] ?]; tauto.
  - rewrite IH. split.
    + tauto.
    + intros [[<- | ?] ?]; tauto.
Qed.

Lemma unique_ids_filter (f : Todo -> bool) (l : list Todo) :
  NoDup (ids l) -> NoDup (ids (List.filter f l)).
Proof.
  induction l as [|t l IH]; simpl; intros H; [constructor|].
  apply NoDup_cons_iff in H as [Hin Hl].
  destruct (f t); simpl; [|now apply IH].
  constructor; [|now apply IH].
  intros Hc. apply Hin. unfold ids in *. apply in_map_iff in Hc as [u [Hu Hc]].
  apply filter_In in Hc as [Hc _]. apply in_map_iff. now exists u.
Qed.

Lemma ids_filter_incl (f : Todo -> bool) (l : list Todo) :
  incl (ids (List.filter f l)) (ids l).
Proof.
  intros i Hi. unfold ids in *. apply in_map_iff in Hi as [u [Hu Hi]].
  apply filter_In in Hi as [Hi _]. apply in_map_iff. now exists u.
Qed.

(** ** toggleTodo *)

Lemma toggleTodo_ids (id0 : JsString) (l : list Todo) :
  ids (toggleTodo id0 l) = ids l.
Proof.
  unfold ids, toggleTodo. rewrite map_map. apply map_ext.
  intros t. now destruct (str_eq (id t) id0).
Qed.

Lemma toggleTodo_absent (id0 : JsString) (l : list Todo) :
  ~ In id0 (ids l) -> toggleTodo id0 l = l.
Proof.
  induction l as [|t l IH]; simpl; intros H; [reflexivity|].
  destruct (str_eq (id t) id0) eqn:E.
  - apply str_eq_true in E. tauto.
  - f_equal. apply IH. tauto.
Qed.

(** Whatever the list, [toggleTodo] keeps every position and inverts the
    flag of each task that carries the id. *)
Lemma toggleTodo_nth (id0 : JsString) (l : list Todo) (i : nat) :
  nth_error (toggleTodo id0 l) i =
  option_map
    (fun t => if str_eq_dec (id t) id0
              then mkTodo (id t) (text t) (negb (completed t))
                          (priority t) (createdAt t)
              else t)
    (nth_error l i).
Proof.
  unfold toggleTodo. rewrite nth_error_map.
  destruct (nth_error l i) as [t|]; [|reflexivity]. simpl.
  unfold str_eq. now destruct (str_eq_dec (id t) id0).
Qed.

Lemma flipped_same (l : list Todo) : flipped l l = 0%nat.
Proof.
  unfold flipped. induction l as [|t l IH]; simpl; [reflexivity|].
  now rewrite xorb_nilpotent.
Qed.

Lemma flipped_prefix (l x y : list Todo) :
  flipped (l ++ x) (l ++ y) = flipped x y.
Proof.
  unfold flipped. induction l as [|t l IH]; simpl; [reflexivity|].
  now rewrite xorb_nilpotent.
Qed.

(** ** deleteTodo *)

Lemma deleteTodo_absent (id0 : JsString) (l : list Todo) :
  ~ In id0 (ids l) -> deleteTodo id0 l = l.
Proof.
  induction l as [|t l IH]; simpl; intros H; [reflexivity|].
  destruct (str_eq (id t) id0) eqn:E; simpl.
  - apply str_eq_true in E. tauto.
  - f_equal. apply IH. tauto.
Qed.

Lemma deleteTodo_gone (id0 : JsString) (l : list Todo) :
  ~ In id0 (ids (deleteTodo id0 l)).
Proof.
  unfold ids, deleteTodo. intros H. apply in_map_iff in H as [t [Ht H]].
  apply filter_In in H as [_ H]. apply negb_true_iff, str_eq_false in H.
  contradiction.
Qed.

Example run_same_tick : run same_tick = [eggs; milk].
Proof. reflexivity. Qed.

(** ** Claims about the handlers *)

(** What [addTodo] does on every list.  It returns the list as it is when
    the trimmed input is empty.  Otherwise the list grows by exactly one
    task, placed first, with the trimmed input as text, [completed = false],
    the chosen priority, the second clock reading as [createdAt] and the
    decimal string of the first clock reading as [id]; the tasks already
    present follow unchanged and in order. *)
Theorem addTodo_spec (now_id now_created : Z) (input : JsString)
    (p : Priority) (prev : list Todo) :
  (trim input = [] -> addTodo now_id now_created input p prev = prev) /\
  (trim input <> [] ->
   exists t,
     addTodo now_id now_created input p prev = t :: prev /\
     List.length (addTodo now_id now_created input p prev)
       = S (List.length prev) /\
     id t = toString now_id /\ text t = trim input /\
     completed t = false /\ priority t = p /\ createdAt t = now_created).
Proof.
  unfold addTodo. split; intros H.
  - apply truthy_false in H. now rewrite H.
  - apply truthy_true in H. rewrite H. simpl.
    eexists. repeat split.
Qed.

Lemma addTodo_spec_witness :
  (trim (js "   ") = [] /\ addTodo 7 8 (js "   ") high [walk_dog] = [walk_dog]) /\
  trim (js "  Buy milk ") <> [] /\
  exists t,
    addTodo 7 8 (js "  Buy milk ") high [walk_dog] = t :: [walk_dog] /\
    text t = js "Buy milk" /\ id t = js "7".
Proof.
  assert (Hb : trim (js "   ") = []) by reflexivity.
  assert (Hne : trim (js "  Buy milk ") <> []) by (vm_compute; discriminate).
  split; [split; [exact Hb|];
          exact (proj1 (addTodo_spec 7 8 (js "   ") high [walk_dog]) Hb)|].
  split; [exact Hne|].
  destruct (proj2 (addTodo_spec 7 8 (js "  Buy milk ") high [walk_dog]) Hne)
    as [t [Ht [_ [Hid [Htext _]]]]].
  exists t. repeat split; [exact Ht | exact Htext | exact Hid].
Defined.

(** C2.  The claim asks for a fresh id; [addTodo] takes the reading of the
    clock as id and checks nothing.  With "milk" in the list, added at
    reading [tick], adding "eggs" at the same reading puts a new task first
    whose id is the id of the task already there: the id is not fresh. *)
Theorem addTodo_id_not_fresh :
  run [Add tick tick (js "milk") medium] = [milk] /\
  addTodo tick tick (js "eggs") low [milk] = [eggs; milk] /\
  id eggs = id milk /\
  In (id eggs) (ids [milk]).
Proof.
  repeat split; try reflexivity. vm_compute. now left.
Qed.

(** C5.  A task list has pairwise distinct ids (the invariant of the data
    model).  With an id that no task carries, [toggleTodo] returns the list
    as it is.  With an id that a task carries, the list is returned with
    that one task's [completed] flag inverted: its other fields, the tasks
    before and after it and their order are as they were, and the flags
    differ at exactly one position. *)
Theorem toggleTodo_spec (id0 : JsString) (prev : list Todo) :
  (~ In id0 (ids prev) -> toggleTodo id0 prev = prev) /\
  (In id0 (ids prev) -> NoDup (ids prev) ->
   exists l1 t l2,
     prev = l1 ++ t :: l2 /\ id t = id0 /\
     toggleTodo id0 prev =
       l1 ++ mkTodo (id t) (text t) (negb (completed t))
                    (priority t) (createdAt t) :: l2 /\
     flipped prev (toggleTodo id0 prev) = 1%nat).
Proof.
  split; [apply toggleTodo_absent|].
  intros Hin Huniq.
  destruct (in_ids_split _ _ Hin) as [l1 [t [l2 [-> <-]]]].
  destruct (unique_id_elsewhere _ _ _ Huniq) as [H1 H2].
  assert (E : toggleTodo (id t) (l1 ++ t :: l2) =
              l1 ++ mkTodo (id t) (text t) (negb (completed t))
                           (priority t) (createdAt t) :: l2).
  { unfold toggleTodo at 1. rewrite map_app. simpl.
    fold (toggleTodo (id t) l1). fold (toggleTodo (id t) l2).
    rewrite (toggleTodo_absent _ _ H1), (toggleTodo_absent _ _ H2).
    rewrite str_eq_refl. reflexivity. }
  exists l1, t, l2. repeat split; [exact E |].
  rewrite E, flipped_prefix.
  pose proof (flipped_same l2) as H0. unfold flipped in *. simpl.
  destruct (completed t); simpl; now rewrite H0.
Qed.

Lemma toggleTodo_spec_witness :
  (~ In (js "3") (ids [buy_milk; walk_dog]) /\
   toggleTodo (js "3") [buy_milk; walk_dog] = [buy_milk; walk_dog]) /\
  In (js "2") (ids [buy_milk; walk_dog]) /\
  NoDup (ids [buy_milk; walk_dog]) /\
  flipped [buy_milk; walk_dog] (toggleTodo (js "2") [buy_milk; walk_dog])
    = 1%nat.
Proof.
  assert (Hin : In (js "2") (ids [buy_milk; walk_dog]))
    by (vm_compute; tauto).
  assert (Hu : NoDup (ids [buy_milk; walk_dog])).
  { vm_compute. repeat constructor; simpl; intuition discriminate. }
  assert (Hout : ~ In (js "3") (ids [buy_milk; walk_dog])).
  { vm_compute. intuition discriminate. }
  split; [split; [exact Hout|];
          exact (proj1 (toggleTodo_spec (js "3") [buy_milk; walk_dog]) Hout)|].
  split; [exact Hin|]. split; [exact Hu|].
  destruct (proj2 (toggleTodo_spec (js "2") [buy_milk; walk_dog]) Hin Hu)
    as [l1 [t [l2 [_ [_ [_ H]]]]]].
  exact H.
Defined.

(** An effect of two tasks sharing an id, as after two [addTodo] at one
    reading of the clock: [toggleTodo] with that id inverts the flag of
    both. *)
Lemma toggleTodo_flips_twins :
  In (toString tick) (ids (run same_tick)) /\
  flipped (run same_tick) (toggleTodo (toString tick) (run same_tick))
    = 2%nat /\
  toggleTodo (toString tick) (run same_tick) =
    [with_completed eggs true; with_completed milk true].
Proof.
  split; [vm_compute; tauto|]. split; reflexivity.
Qed.

(** C9.  Two [toggleTodo] in a row with the same id, whether a task carries
    it or not, give back the list they started from. *)
Theorem toggleTodo_involutive (id0 : JsString) (prev : list Todo) :
  toggleTodo id0 (toggleTodo id0 prev) = prev.
Proof.
  unfold toggleTodo. rewrite map_map.
  rewrite <- (map_id prev) at 2. apply map_ext.
  intros [i x c p d]. simpl.
  destruct (str_eq i id0) eqn:E; simpl.
  - rewrite E. unfold with_completed. simpl. now rewrite negb_involutive.
  - now rewrite E.
Qed.

(** C6.  A task list has pairwise distinct ids (no two tasks share an id).
    With an id that a task carries, [deleteTodo] takes out exactly that one
    task.  The tasks it keeps are exactly those with another id, in their
    order.  With an id that no task carries it returns the list as it is,
    so a second [deleteTodo] with the same id changes nothing. *)
Theorem deleteTodo_spec (id0 : JsString) (prev : list Todo) :
  (~ In id0 (ids prev) -> deleteTodo id0 prev = prev) /\
  deleteTodo id0 (deleteTodo id0 prev) = deleteTodo id0 prev /\
  selection (fun t => id t <> id0) prev (deleteTodo id0 prev) /\
  (In id0 (ids prev) -> NoDup (ids prev) ->
   exists l1 t l2,
     prev = l1 ++ t :: l2 /\ id t = id0 /\ deleteTodo id0 prev = l1 ++ l2).
Proof.
  split; [apply deleteTodo_absent|].
  split; [apply deleteTodo_absent, deleteTodo_gone|].
  split.
  { apply selection_filter. intros t.
    rewrite negb_true_iff. apply str_eq_false. }
  intros Hin Huniq.
  destruct (in_ids_split _ _ Hin) as [l1 [t [l2 [-> <-]]]].
  destruct (unique_id_elsewhere _ _ _ Huniq) as [H1 H2].
  exists l1, t, l2. repeat split.
  unfold deleteTodo at 1. rewrite filter_app. simpl.
  fold (deleteTodo (id t) l1). fold (deleteTodo (id t) l2).
  rewrite (deleteTodo_absent _ _ H1), (deleteTodo_absent _ _ H2).
  rewrite str_eq_refl. reflexivity.
Qed.

Lemma deleteTodo_spec_witness :
  (~ In (js "3") (ids [buy_milk; walk_dog]) /\
   deleteTodo (js "3") [buy_milk; walk_dog] = [buy_milk; walk_dog]) /\
  In (js "1") (ids [buy_milk; walk_dog]) /\
  NoDup (ids [buy_milk; walk_dog]) /\
  exists l1 t l2,
    [buy_milk; walk_dog] = l1 ++ t :: l2 /\ id t = js "1" /\
    deleteTodo (js "1") [buy_milk; walk_dog] = l1 ++ l2.
Proof.
  assert (Hin : In (js "1") (ids [buy_milk; walk_dog]))
    by (vm_compute; tauto).
  assert (Hu : NoDup (ids [buy_milk; walk_dog])).
  { vm_compute. repeat constructor; simpl; intuition discriminate. }
  assert (Hout : ~ In (js "3") (ids [buy_milk; walk_dog])).
  { vm_compute. intuition discriminate. }
  split; [split; [exact Hout|];
          exact (proj1 (deleteTodo_spec (js "3") [buy_milk; walk_dog]) Hout)|].
  split; [exact Hin|]. split; [exact Hu|].
  exact (proj2 (proj2 (proj2 (deleteTodo_spec (js "1") [buy_milk; walk_dog])))
           Hin Hu).
Defined.

(** An effect of two tasks sharing an id, as after two [addTodo] at one
    reading of the clock: [deleteTodo] with that id takes out both. *)
Lemma deleteTodo_removes_twins :
  In (toString tick) (ids (run same_tick)) /\
  List.length (run same_tick) = 2%nat /\
  deleteTodo (toString tick) (run same_tick) = [].
Proof.
  split; [vm_compute; tauto|]. split; reflexivity.
Qed.

(** C7.  The ids in the list are those [addTodo] made, none of them the
    empty string.  When the trimmed text is empty, [saveEdit] returns the
    list as it is: the task stays, with its old text.  When it is not, the
    list keeps its length and, position by position, every task with
    another id is as it was while the task with the edited id has the
    trimmed string as text and its [id], [completed], [priority] and
    [createdAt] as before. *)
Theorem saveEdit_spec (id0 newText : JsString) (prev : list Todo) :
  ~ In [] (ids prev) ->
  (trim newText = [] -> fst (saveEdit (Some id0) newText prev) = prev) /\
  (trim newText <> [] ->
   List.length (fst (saveEdit (Some id0) newText prev)) = List.length prev /\
   forall i t,
     nth_error prev i = Some t ->
     nth_error (fst (saveEdit (Some id0) newText prev)) i =
       Some (if str_eq_dec (id t) id0
             then mkTodo (id t) (trim newText) (completed t)
                         (priority t) (createdAt t)
             else t)).
Proof.
  intros Hids. unfold saveEdit. split; intros H.
  - destruct (truthy id0); [|reflexivity].
    apply truthy_false in H. now rewrite H.
  - destruct (truthy id0) eqn:Hid0; simpl.
    + apply truthy_true in H. rewrite H. split; [apply length_map|].
      intros i t Ht. rewrite nth_error_map, Ht. simpl.
      unfold str_eq. now destruct (str_eq_dec (id t) id0).
    + split; [reflexivity|]. intros i t Ht. rewrite Ht.
      apply truthy_false in Hid0. subst id0.
      destruct (str_eq_dec (id t) []) as [E|_]; [|reflexivity].
      exfalso. apply Hids. rewrite <- E. unfold ids.
      apply in_map. eapply nth_error_In. exact Ht.
Qed.

Lemma saveEdit_spec_witness :
  ~ In [] (ids [buy_milk; walk_dog]) /\
  (trim (js "   ") = [] /\
   fst (saveEdit (Some (js "1")) (js "   ") [buy_milk; walk_dog])
     = [buy_milk; walk_dog]) /\
  trim (js " hello ") <> [] /\
  nth_error (fst (saveEdit (Some (js "1")) (js " hello ")
                           [buy_milk; walk_dog])) 0 =
    Some (mkTodo (js "1") (js "hello") false medium 1).
Proof.
  assert (Hids : ~ In [] (ids [buy_milk; walk_dog])).
  { vm_compute. intuition discriminate. }
  assert (Hb : trim (js "   ") = []) by reflexivity.
  assert (Hne : trim (js " hello ") <> []) by (vm_compute; discriminate).
  split; [exact Hids|].
  split; [split; [exact Hb|];
          exact (proj1 (saveEdit_spec (js "1") (js "   ")
                          [buy_milk; walk_dog] Hids) Hb)|].
  split; [exact Hne|].
  exact (proj2 (proj2 (saveEdit_spec (js "1") (js " hello ")
                         [buy_milk; walk_dog] Hids) Hne)
           0%nat buy_milk eq_refl).
Defined.

Example saveEdit_blank :
  saveEdit (Some (js "1")) (js "   ") [buy_milk; walk_dog]
    = ([buy_milk; walk_dog], None).
Proof. reflexivity. Qed.

Example saveEdit_hello :
  saveEdit (Some (js "2")) (js " hello ") [buy_milk; walk_dog]
    = ([buy_milk; with_text walk_dog (js "hello")], None).
Proof. reflexivity. Qed.

(** Once the edit is closed a further [saveEdit] does nothing. *)
Lemma saveEdit_closed (editText : JsString) (prev : list Todo) :
  saveEdit None editText prev = (prev, None).
Proof. reflexivity. Qed.

(** ** clearCompleted *)

Lemma done_filter_not_completed (l : list Todo) :
  done (List.filter (fun t => negb (completed t)) l) = 0%nat.
Proof.
  unfold done. induction l as [|t l IH]; simpl; [reflexivity|].
  destruct (completed t) eqn:E; simpl; [exact IH|].
  rewrite E. destruct (bool_dec false true); [discriminate | exact IH].
Qed.

Lemma not_done_filter_not_completed (l : list Todo) :
  not_done (List.filter (fun t => negb (completed t)) l) = not_done l.
Proof.
  unfold not_done. induction l as [|t l IH]; simpl; [reflexivity|].
  destruct (completed t) eqn:E; simpl.
  - destruct (bool_dec true false); [discriminate | exact IH].
  - rewrite E. destruct (bool_dec false false); congruence.
Qed.

(** C8.  Confirmed with Clear, [clearCompleted] returns exactly the tasks
    with [completed = false], each as it was and in the original order; no
    completed task is left and the number of tasks still to do is the same.
    The list changes in this one step or, on Cancel, not at all. *)
Theorem clearCompleted_spec (prev : list Todo) :
  selection (fun t => completed t = false) prev (clearCompleted Clear prev) /\
  done (clearCompleted Clear prev) = 0%nat /\
  not_done (clearCompleted Clear prev) = not_done prev /\
  clearCompleted Cancel prev = prev.
Proof.
  simpl. split; [|split; [|split]].
  - apply selection_filter. intros t. apply negb_true_iff.
  - apply done_filter_not_completed.
  - apply not_done_filter_not_completed.
  - reflexivity.
Qed.

(** ** The derived view *)

(** C3.  [filtered] is the selection of the tasks that pass the filter and
    the search: in order, nothing else kept and none of them left out. *)
Theorem filtered_spec (toLowerCase : JsString -> JsString)
    (todos : list Todo) (filter : Filter.t) (search : JsString) :
  selection
    (fun t => passes_filter filter t /\ passes_search toLowerCase search t)
    todos
    (filtered toLowerCase todos filter search).
Proof.
  apply selection_filter. intros t. cbv zeta.
  rewrite andb_true_iff, orb_true_iff, str_eq_true, includes_substring.
  unfold passes_filter, passes_search.
  assert (Hf : match filter with
               | Filter.all => true
               | Filter.active => negb (completed t)
               | Filter.completed => completed t
               end = true <->
               filter = Filter.all \/
               (filter = Filter.active /\ completed t = false) \/
               (filter = Filter.completed /\ completed t = true)).
  { destruct filter, (completed t); simpl; intuition congruence. }
  rewrite Hf. reflexivity.
Qed.

Example view_completed_of_active :
  filtered toLowerCase_ascii [buy_milk] Filter.completed [] = [].
Proof. reflexivity. Qed.

Example view_search_dog :
  filtered toLowerCase_ascii [buy_milk; walk_dog] Filter.all (js "dog")
    = [walk_dog].
Proof. reflexivity. Qed.

Example view_search_folds_case :
  filtered toLowerCase_ascii [buy_milk; walk_dog] Filter.active (js "MILK")
    = [buy_milk].
Proof. reflexivity. Qed.

(** C10.  With the filter on [all] and an empty search, [filtered] is the
    whole list, every task as it is and in its place. *)
Theorem filtered_all_empty (toLowerCase : JsString -> JsString)
    (todos : list Todo) :
  filtered toLowerCase todos Filter.all [] = todos.
Proof.
  unfold filtered.
  rewrite (filter_ext _ (fun _ => true)); [apply filter_true|].
  intros t. reflexivity.
Qed.

(** ** Progress *)

Lemma remaining_not_done (l : list Todo) : remaining l = not_done l.
Proof.
  unfold remaining, not_done. induction l as [|t l IH]; simpl; [reflexivity|].
  destruct (completed t); simpl.
  - destruct (bool_dec true false); [discriminate | exact IH].
  - destruct (bool_dec false false); [now rewrite IH | congruence].
Qed.

Lemma remaining_le_length (l : list Todo) :
  (remaining l <= List.length l)%nat.
Proof.
  unfold remaining. induction l as [|t l IH]; simpl; [lia|].
  destruct (completed t); simpl; lia.
Qed.

Lemma fraction_bounds (a b : Z) :
  0 <= a <= b -> 0 < b ->
  (0 <= inject_Z a / inject_Z b)%Q /\ (inject_Z a / inject_Z b <= 1)%Q.
Proof.
  intros Ha Hb. destruct b as [|p|p]; try lia.
  unfold Qle, Qdiv, Qmult, Qinv, inject_Z. simpl. lia.
Qed.

(** C4.  [remaining] is the number of tasks with [completed = false].
    [completionPct] is 0 for the empty list and the quotient
    (total - remaining) / total for any other; it is always a finite number
    between 0 and 1, never NaN or an infinity.  For the empty list the two
    values are 0 and 0. *)
Theorem progress_spec (todos : list Todo) :
  remaining todos = not_done todos /\
  completionPct todos =
    match todos with
    | [] => Num 0
    | _ :: _ =>
        Num (inject_Z (Z.of_nat (List.length todos)
                       - Z.of_nat (remaining todos))
             / inject_Z (Z.of_nat (List.length todos)))
    end /\
  (exists q, completionPct todos = Num q /\ (0 <= q)%Q /\ (q <= 1)%Q) /\
  remaining [] = 0%nat /\ completionPct [] = Num 0.
Proof.
  split; [apply remaining_not_done|].
  assert (E : completionPct todos =
    match todos with
    | [] => Num 0
    | _ :: _ =>
        Num (inject_Z (Z.of_nat (List.length todos)
                       - Z.of_nat (remaining todos))
             / inject_Z (Z.of_nat (List.length todos)))
    end).
  { destruct todos as [|t l]; [reflexivity|].
    unfold completionPct, js_div.
    change (0 <? List.length (t :: l))%nat with true. cbv iota.
    destruct (Z.eqb_spec (Z.of_nat (List.length (t :: l))) 0) as [H|_];
      [simpl in H; lia | reflexivity]. }
  split; [exact E|]. split; [|split; reflexivity].
  rewrite E. destruct todos as [|t l].
  - exists 0%Q. split; [reflexivity|]. split; unfold Qle; simpl; lia.
  - eexists. split; [reflexivity|]. apply fraction_bounds.
    + pose proof (remaining_le_length (t :: l)). lia.
    + simpl. lia.
Qed.

Example progress_one_of_three :
  remaining [buy_milk; walk_dog; eggs] = 2%nat /\
  completionPct [buy_milk; walk_dog; eggs] = Num (1 # 3).
Proof. split; reflexivity. Qed.

(** ** Runs *)

Lemma run_snoc (ops : list Op) (o : Op) :
  run (ops ++ [o]) = apply o (run ops).
Proof. unfold run, run_from. now rewrite fold_left_app. Qed.

Lemma id_clock_app (a b : list Op) :
  id_clock (a ++ b) = id_clock a ++ id_clock b.
Proof.
  induction a as [|o a IH]; simpl; [reflexivity|].
  destruct o; try exact IH.
  destruct (truthy (trim input)); simpl; now rewrite IH.
Qed.

Lemma saveEdit_ids (id0 newText : JsString) (l : list Todo) :
  ids (fst (saveEdit (Some id0) newText l)) = ids l.
Proof.
  unfold saveEdit. destruct (truthy id0); [|reflexivity]. simpl.
  destruct (truthy (trim newText)); [|reflexivity].
  unfold ids. rewrite map_map. apply map_ext.
  intros t. now destruct (str_eq (id t) id0).
Qed.

(** Every id in the list was handed out by an [Add] of the run. *)
Lemma run_ids_assigned (ops : list Op) :
  incl (ids (run ops)) (assigned ops).
Proof.
  induction ops as [|o ops IH] using rev_ind; [intros i []|].
  rewrite run_snoc. unfold assigned in *. rewrite id_clock_app, map_app.
  intros i Hi. apply in_app_iff.
  destruct o; cbn [apply] in Hi.
  - unfold addTodo in Hi. cbn [id_clock].
    destruct (truthy (trim input)); simpl in *.
    + destruct Hi as [<- | Hi]; [right; now left | left; now apply IH].
    + left. now apply IH.
  - rewrite toggleTodo_ids in Hi. left. now apply IH.
  - apply ids_filter_incl in Hi. left. now apply IH.
  - rewrite saveEdit_ids in Hi. left. now apply IH.
  - apply ids_filter_incl in Hi. left. now apply IH.
Qed.

(** No task ever has the empty string as id. *)
Lemma run_ids_nonempty (ops : list Op) : ~ In [] (ids (run ops)).
Proof.
  intros H. apply run_ids_assigned in H. unfold assigned in H.
  apply in_map_iff in H as [n [Hn _]]. now apply toString_nonempty in Hn.
Qed.

(** A reading the clock has not shown to an earlier [Add] prints as an id
    that no task of the list has. *)
Lemma fresh_reading_fresh_id (ops : list Op) (n : Z) :
  ~ In n (id_clock ops) -> ~ In (toString n) (ids (run ops)).
Proof.
  intros Hn Hin. apply run_ids_assigned in Hin. unfold assigned in Hin.
  apply in_map_iff in Hin as [m [Hm Hin]].
  apply toString_inj in Hm. now subst m.
Qed.

Lemma assigned_unique (ops : list Op) :
  NoDup (id_clock ops) -> NoDup (assigned ops).
Proof.
  unfold assigned. induction (id_clock ops) as [|n l IH]; simpl; intros H.
  - constructor.
  - apply NoDup_cons_iff in H as [Hn Hl]. constructor; [|now apply IH].
    intros Hin. apply in_map_iff in Hin as [m [Hm Hin]].
    apply toString_inj in Hm. now subst m.
Qed.

(** What the ids rest on.  An id is the decimal string of the clock
    reading [addTodo] takes.  In a run from the empty list in which those
    readings are pairwise distinct, the ids in the list are pairwise
    distinct, each of them was handed out by an [Add] of the run, and no
    id is handed out twice. *)
Theorem ids_unique (ops : list Op) :
  NoDup (id_clock ops) ->
  NoDup (ids (run ops)) /\
  NoDup (assigned ops) /\
  incl (ids (run ops)) (assigned ops).
Proof.
  intros Hclock. split; [|split; [now apply assigned_unique | apply run_ids_assigned]].
  induction ops as [|o ops IH] using rev_ind; [constructor|].
  rewrite id_clock_app in Hclock. rewrite run_snoc.
  assert (Hops : NoDup (id_clock ops)) by now apply NoDup_app_remove_r in Hclock.
  specialize (IH Hops).
  destruct o; cbn [apply].
  - unfold addTodo. cbn [id_clock] in Hclock.
    destruct (truthy (trim input)); simpl; [|exact IH].
    constructor; [|exact IH].
    apply fresh_reading_fresh_id.
    apply NoDup_remove_2 in Hclock. now rewrite app_nil_r in Hclock.
  - now rewrite toggleTodo_ids.
  - now apply unique_ids_filter.
  - now rewrite saveEdit_ids.
  - now apply unique_ids_filter.
Qed.

Lemma ids_unique_witness :
  NoDup (id_clock [Add 1 1 (js "a") medium; Toggle (js "1");
                   Add 2 2 (js "b") low; Add 2 3 (js "  ") high;
                   Delete (js "9"); EditText (js "2") (js "c");
                   Toggle (js "1"); ClearCompleted]) /\
  NoDup (ids (run [Add 1 1 (js "a") medium; Toggle (js "1");
                   Add 2 2 (js "b") low; Add 2 3 (js "  ") high;
                   Delete (js "9"); EditText (js "2") (js "c");
                   Toggle (js "1"); ClearCompleted])).
Proof.
  assert (H : NoDup (id_clock [Add 1 1 (js "a") medium; Toggle (js "1");
                   Add 2 2 (js "b") low; Add 2 3 (js "  ") high;
                   Delete (js "9"); EditText (js "2") (js "c");
                   Toggle (js "1"); ClearCompleted])).
  { vm_compute. repeat constructor; simpl; intuition discriminate. }
  split; [exact H|]. exact (proj1 (ids_unique _ H)).
Defined.

(** C1.  The claim asks for ids that are pairwise distinct and never
    handed out twice; [addTodo] takes the reading of the clock as id and
    checks nothing.  From the empty list, two [Add] at the one reading
    [tick] leave the tasks "eggs" and "milk" in the list with the same id:
    the ids of the list are not pairwise distinct, and that id has been
    handed out twice. *)
Theorem ids_repeat_on_same_tick :
  run same_tick = [eggs; milk] /\
  id eggs = id milk /\
  ~ NoDup (ids (run same_tick)) /\
  ~ NoDup (assigned same_tick).
Proof.
  split; [reflexivity|]. split; [reflexivity|].
  split; vm_compute; intros H; inversion H as [|x l Hn Hl];
    apply Hn; now left.
Qed.

(** * Further properties of the component *)

(** ** Trimming twice *)

Lemma trimStart_fixed (s : JsString) :
  (forall c r, s = c :: r -> is_white_space c = false) -> trimStart s = s.
Proof.
  destruct s as [|c r]; simpl; intros H; [reflexivity|].
  now rewrite (H c r eq_refl).
Qed.

Lemma trim_fixed (s : JsString) :
  (forall c r, s = c :: r -> is_white_space c = false) ->
  (forall c r, s = r ++ [c] -> is_white_space c = false) ->
  trim s = s.
Proof.
  intros Hhead Hlast. unfold trim, trimEnd.
  rewrite (trimStart_fixed s Hhead).
  rewrite trimStart_fixed; [apply rev_involutive|].
  intros c r Hr. apply (Hlast c (rev r)).
  rewrite <- (rev_involutive s), Hr. reflexivity.
Qed.

Lemma trim_idempotent (s : JsString) : trim (trim s) = trim s.
Proof.
  destruct (trim_ends s) as [Hhead Hlast].
  apply trim_fixed; assumption.
Qed.

(** ** Tidy tasks *)

Lemma Forall_filter_keep {A : Type} (P : A -> Prop) (f : A -> bool)
    (l : list A) :
  Forall P l -> Forall P (List.filter f l).
Proof.
  rewrite !Forall_forall. intros H x Hx.
  apply filter_In in Hx. now apply H.
Qed.

Lemma tidy_with_completed (t : Todo) (b : bool) :
  tidy t -> tidy (with_completed t b).
Proof. exact (fun H => H). Qed.

Lemma tidy_with_text (t : Todo) (s : JsString) :
  tidy t -> trim s <> [] -> tidy (with_text t (trim s)).
Proof.
  intros [Hid _] Hs. repeat split; simpl; auto using trim_idempotent.
Qed.

(** Every operation on the list keeps its tasks tidy. *)
Lemma apply_tidy (o : Op) (l : list Todo) :
  Forall tidy l -> Forall tidy (apply o l).
Proof.
  intros H. destruct o; cbn [apply].
  - unfold addTodo. destruct (truthy (trim input)) eqn:E; simpl; [|exact H].
    constructor; [|exact H].
    repeat split; simpl.
    + apply toString_nonempty.
    + now apply truthy_true.
    + apply trim_idempotent.
  - unfold toggleTodo. apply Forall_map.
    apply Forall_impl with (2 := H). intros t Ht.
    destruct (str_eq (id t) id0); [now apply tidy_with_completed | exact Ht].
  - now apply Forall_filter_keep.
  - unfold saveEdit. destruct (truthy id0); [|exact H]. cbn [fst].
    destruct (truthy (trim newText)) eqn:E; [|exact H].
    apply truthy_true in E. apply Forall_map.
    apply Forall_impl with (2 := H). intros t Ht.
    destruct (str_eq (id t) id0); [now apply tidy_with_text | exact Ht].
  - now apply Forall_filter_keep.
Qed.

Lemma run_from_tidy (ops : list Op) (l : list Todo) :
  Forall tidy l -> Forall tidy (run_from l ops).
Proof.
  revert l. induction ops as [|o ops IH]; intros l H; [exact H|].
  apply IH, apply_tidy, H.
Qed.

(** ** How the handlers compose *)

Lemma unique_id_same (l : list Todo) (a b : Todo) :
  NoDup (ids l) -> In a l -> In b l -> id a = id b -> a = b.
Proof.
  induction l as [|t l IH]; simpl; intros Hu Ha Hb E; [contradiction|].
  apply NoDup_cons_iff in Hu as [Hn Hu].
  destruct Ha as [<- | Ha], Hb as [<- | Hb]; try reflexivity.
  - exfalso. apply Hn. rewrite E. now apply in_map.
  - exfalso. apply Hn. rewrite <- E. now apply in_map.
  - now apply IH.
Qed.

(** In a list without repeated ids, [toggleTodo] with the id of a task
    changes that task alone. *)
Lemma toggleTodo_at (l1 l2 : list Todo) (t : Todo) :
  NoDup (ids (l1 ++ t :: l2)) ->
  toggleTodo (id t) (l1 ++ t :: l2) =
  l1 ++ with_completed t (negb (completed t)) :: l2.
Proof.
  intros Hu. destruct (unique_id_elsewhere _ _ _ Hu) as [H1 H2].
  unfold toggleTodo at 1. rewrite map_app. simpl.
  fold (toggleTodo (id t) l1). fold (toggleTodo (id t) l2).
  now rewrite (toggleTodo_absent _ _ H1), (toggleTodo_absent _ _ H2),
    str_eq_refl.
Qed.

Lemma remaining_app (l1 l2 : list Todo) :
  remaining (l1 ++ l2) = (remaining l1 + remaining l2)%nat.
Proof. unfold remaining. now rewrite filter_app, length_app. Qed.

Lemma remaining_cons (t : Todo) (l : list Todo) :
  remaining (t :: l) =
  ((if completed t then 0 else 1) + remaining l)%nat.
Proof. unfold remaining. simpl. now destruct (completed t). Qed.

(** X1.  Ticking a task that is still to do takes one off [remaining], and
    ticking a completed one puts one back, when ids are not repeated. *)
Theorem toggleTodo_remaining (t : Todo) (prev : list Todo) :
  NoDup (ids prev) -> In t prev ->
  (remaining (toggleTodo (id t) prev) + (if completed t then 0 else 1) =
   remaining prev + (if completed t then 1 else 0))%nat.
Proof.
  intros Hu Hin. apply in_split in Hin as [l1 [l2 ->]].
  rewrite (toggleTodo_at _ _ _ Hu), !remaining_app.
  rewrite !remaining_cons. simpl.
  destruct (completed t); simpl; lia.
Qed.

Lemma toggleTodo_remaining_witness :
  NoDup (ids [buy_milk; walk_dog]) /\ In walk_dog [buy_milk; walk_dog] /\
  remaining (toggleTodo (id walk_dog) [buy_milk; walk_dog]) = 2%nat.
Proof.
  assert (Hu : NoDup (ids [buy_milk; walk_dog])).
  { vm_compute. repeat constructor; simpl; intuition discriminate. }
  assert (Hin : In walk_dog [buy_milk; walk_dog]) by (simpl; tauto).
  split; [exact Hu|]. split; [exact Hin|].
  exact (toggleTodo_remaining walk_dog [buy_milk; walk_dog] Hu Hin).
Defined.

(** X2.  A task added with an id new to the list and then deleted by that
    id leaves the list as it was before the two steps. *)
Theorem addTodo_deleteTodo (now_id now_created : Z) (input : JsString)
    (p : Priority) (prev : list Todo) :
  ~ In (toString now_id) (ids prev) ->
  deleteTodo (toString now_id) (addTodo now_id now_created input p prev)
  = prev.
Proof.
  intros Hfresh. unfold addTodo.
  destruct (truthy (trim input)); simpl.
  - rewrite str_eq_refl. simpl. now apply deleteTodo_absent.
  - now apply deleteTodo_absent.
Qed.

Lemma addTodo_deleteTodo_witness :
  ~ In (toString 7) (ids [buy_milk; walk_dog]) /\
  deleteTodo (toString 7) (addTodo 7 8 (js "tea") low [buy_milk; walk_dog])
  = [buy_milk; walk_dog].
Proof.
  assert (H : ~ In (toString 7) (ids [buy_milk; walk_dog])).
  { vm_compute. intuition discriminate. }
  split; [exact H|].
  exact (addTodo_deleteTodo 7 8 (js "tea") low [buy_milk; walk_dog] H).
Defined.

Lemma saveEdit_absent (id0 newText : JsString) (l : list Todo) :
  ~ In id0 (ids l) -> fst (saveEdit (Some id0) newText l) = l.
Proof.
  intros H. unfold saveEdit. destruct (truthy id0); [|reflexivity].
  cbn [fst]. destruct (truthy (trim newText)); [|reflexivity].
  rewrite <- (map_id l) at 2. apply map_ext_in. intros t Ht.
  destruct (str_eq (id t) id0) eqn:E; [|reflexivity].
  apply str_eq_true in E. exfalso. apply H. rewrite <- E. now apply in_map.
Qed.

(** X3.  Once [deleteTodo] has run with an id, [toggleTodo] and [saveEdit]
    with that id do nothing, whatever the list was. *)
Theorem after_deleteTodo (id0 newText : JsString) (prev : list Todo) :
  toggleTodo id0 (deleteTodo id0 prev) = deleteTodo id0 prev /\
  fst (saveEdit (Some id0) newText (deleteTodo id0 prev)) = deleteTodo id0 prev.
Proof.
  split.
  - apply toggleTodo_absent, deleteTodo_gone.
  - apply saveEdit_absent, deleteTodo_gone.
Qed.

Lemma filter_map_same_test {A : Type} (f : A -> bool) (g : A -> A)
    (l : list A) :
  (forall x, f (g x) = f x) ->
  List.filter f (List.map g l) = List.map g (List.filter f l).
Proof.
  intros H. induction l as [|x l IH]; simpl; [reflexivity|].
  rewrite H. destruct (f x); simpl; now rewrite IH.
Qed.

Lemma filter_swap {A : Type} (f g : A -> bool) (l : list A) :
  List.filter f (List.filter g l) = List.filter g (List.filter f l).
Proof.
  induction l as [|x l IH]; simpl; [reflexivity|].
  destruct (f x) eqn:Ef, (g x) eqn:Eg; simpl;
    rewrite ?Ef, ?Eg, IH; reflexivity.
Qed.

(** X4.  [deleteTodo] can change places with [toggleTodo], with the update
    of [saveEdit], with another [deleteTodo] and with [clearCompleted]:
    the list that results is the same in either order. *)
Theorem deleteTodo_commutes (id0 id1 newText : JsString)
    (prev : list Todo) :
  deleteTodo id0 (toggleTodo id1 prev) = toggleTodo id1 (deleteTodo id0 prev) /\
  deleteTodo id0 (fst (saveEdit (Some id1) newText prev)) =
    fst (saveEdit (Some id1) newText (deleteTodo id0 prev)) /\
  deleteTodo id0 (deleteTodo id1 prev) = deleteTodo id1 (deleteTodo id0 prev) /\
  deleteTodo id0 (clearCompleted Clear prev) =
    clearCompleted Clear (deleteTodo id0 prev).
Proof.
  repeat split.
  - unfold deleteTodo, toggleTodo. apply filter_map_same_test.
    intros t. now destruct (str_eq (id t) id1).
  - unfold saveEdit. destruct (truthy id1); [|reflexivity]. cbn [fst].
    destruct (truthy (trim newText)); [|reflexivity].
    unfold deleteTodo. apply filter_map_same_test.
    intros t. now destruct (str_eq (id t) id1).
  - apply filter_swap.
  - apply filter_swap.
Qed.

(** X5.  Two [toggleTodo] can change places, and so can [toggleTodo] and
    the update of [saveEdit]. *)
Theorem toggleTodo_commutes (id0 id1 newText : JsString)
    (prev : list Todo) :
  toggleTodo id0 (toggleTodo id1 prev) = toggleTodo id1 (toggleTodo id0 prev) /\
  toggleTodo id0 (fst (saveEdit (Some id1) newText prev)) =
    fst (saveEdit (Some id1) newText (toggleTodo id0 prev)).
Proof.
  split.
  - unfold toggleTodo. rewrite !map_map. apply map_ext. intros t.
    destruct (str_eq (id t) id0) eqn:E0, (str_eq (id t) id1) eqn:E1;
      simpl; rewrite ?E0, ?E1; reflexivity.
  - unfold saveEdit. destruct (truthy id1); [|reflexivity]. cbn [fst].
    destruct (truthy (trim newText)); [|reflexivity].
    unfold toggleTodo. rewrite !map_map. apply map_ext. intros t.
    destruct (str_eq (id t) id0) eqn:E0, (str_eq (id t) id1) eqn:E1;
      simpl; rewrite ?E0, ?E1; reflexivity.
Qed.

(** ** The view and the counters *)

Lemma filter_twice {A : Type} (f g : A -> bool) (l : list A) :
  List.filter f (List.filter g l) = List.filter (fun x => g x && f x) l.
Proof.
  induction l as [|x l IH]; simpl; [reflexivity|].
  destruct (g x); simpl; [|exact IH].
  destruct (f x); now rewrite IH.
Qed.

(** X6.  The view is the search applied to the outcome of the filter: the
    two stages can be run one after the other. *)
Theorem filtered_stages (toLowerCase : JsString -> JsString)
    (todos : list Todo) (filter : Filter.t) (search : JsString) :
  filtered toLowerCase todos filter search =
  filtered toLowerCase (filtered toLowerCase todos filter []) Filter.all search.
Proof.
  unfold filtered. rewrite filter_twice. apply filter_ext.
  intros t. cbv zeta. change (str_eq [] []) with true.
  rewrite orb_true_l, andb_true_r. reflexivity.
Qed.

Lemma filter_split_length {A : Type} (f g : A -> bool) (l : list A) :
  List.length (List.filter g l) =
  (List.length (List.filter (fun x => negb (f x) && g x) l) +
   List.length (List.filter (fun x => f x && g x) l))%nat.
Proof.
  induction l as [|x l IH]; simpl; [reflexivity|].
  destruct (f x), (g x); simpl; lia.
Qed.

(** X7.  Whatever the search, the rows under "all" are as many as the rows
    under "active" and the rows under "completed" together. *)
Theorem filtered_partition (toLowerCase : JsString -> JsString)
    (todos : list Todo) (search : JsString) :
  List.length (filtered toLowerCase todos Filter.all search) =
  (List.length (filtered toLowerCase todos Filter.active search) +
   List.length (filtered toLowerCase todos Filter.completed search))%nat.
Proof.
  exact (filter_split_length completed
           (fun t => str_eq search [] ||
                     includes (toLowerCase (text t)) (toLowerCase search))
           todos).
Qed.

Lemma filter_completed_length (l : list Todo) :
  (List.length (List.filter completed l) + remaining l = List.length l)%nat.
Proof.
  unfold remaining. induction l as [|t l IH]; simpl; [reflexivity|].
  destruct (completed t); simpl; lia.
Qed.

(** With an empty search the three views are the list, its tasks to do and
    its completed tasks. *)
Lemma counters_shape (toLowerCase : JsString -> JsString)
    (todos : list Todo) :
  filtered toLowerCase todos Filter.all [] = todos /\
  filtered toLowerCase todos Filter.active [] =
    List.filter (fun t => negb (completed t)) todos /\
  filtered toLowerCase todos Filter.completed [] =
    List.filter completed todos.
Proof.
  unfold filtered. repeat split.
  - rewrite (filter_ext _ (fun _ => true)); [apply filter_true|].
    intros t. reflexivity.
  - apply filter_ext. intros t. cbv zeta.
    change (str_eq [] []) with true. now rewrite orb_true_l, andb_true_r.
  - apply filter_ext. intros t. cbv zeta.
    change (str_eq [] []) with true. now rewrite orb_true_l, andb_true_r.
Qed.

(** X8.  The counters agree with the tabs.  With an empty search the
    "active" view has [remaining] rows and the "completed" view has as many
    rows as the header counts, a number between 0 and the length of the
    list. *)
Theorem counters_match_views (toLowerCase : JsString -> JsString)
    (todos : list Todo) :
  remaining todos =
    List.length (filtered toLowerCase todos Filter.active []) /\
  completedCount todos =
    Z.of_nat (List.length (filtered toLowerCase todos Filter.completed [])) /\
  0 <= completedCount todos <= Z.of_nat (List.length todos).
Proof.
  destruct (counters_shape toLowerCase todos) as [_ [Ha Hc]].
  pose proof (filter_completed_length todos) as H.
  rewrite Ha, Hc. unfold completedCount.
  split; [reflexivity|]. split; lia.
Qed.

(** ** The "Clear completed" button and the progress bar *)

Lemma someCompleted_remaining (l : list Todo) :
  someCompleted l = false <-> remaining l = List.length l.
Proof.
  unfold someCompleted.
  induction l as [|t l IH]; simpl; [tauto|].
  rewrite remaining_cons. pose proof (remaining_le_length l) as Hle.
  destruct (completed t); simpl.
  - split; [discriminate | lia].
  - rewrite IH. lia.
Qed.

Lemma not_completed_filter_id (l : list Todo) :
  someCompleted l = false ->
  List.filter (fun t => negb (completed t)) l = l.
Proof.
  unfold someCompleted. induction l as [|t l IH]; simpl; [reflexivity|].
  destruct (completed t); simpl; [discriminate|].
  intros H. now rewrite IH.
Qed.

Lemma someCompleted_cleared (l : list Todo) :
  someCompleted (clearCompleted Clear l) = false.
Proof.
  unfold someCompleted. induction l as [|t l IH]; simpl; [reflexivity|].
  destruct (completed t) eqn:E; simpl; [exact IH|]. now rewrite E.
Qed.

(** X9.  The footer offers "Clear completed" exactly when pressing Clear
    would change the list, which is when [remaining] is below the length;
    after Clear the button is gone. *)
Theorem someCompleted_spec (todos : list Todo) :
  (someCompleted todos = false <-> clearCompleted Clear todos = todos) /\
  (someCompleted todos = true <->
   (remaining todos < List.length todos)%nat) /\
  someCompleted (clearCompleted Clear todos) = false.
Proof.
  simpl. split; [|split].
  - split; [apply not_completed_filter_id|].
    intros H. apply someCompleted_remaining.
    unfold remaining. now rewrite H.
  - pose proof (remaining_le_length todos) as Hle.
    pose proof (someCompleted_remaining todos) as H.
    destruct (someCompleted todos); split; intros H'.
    + destruct (Nat.eq_dec (remaining todos) (List.length todos)) as [E|E];
        [apply H in E; discriminate | lia].
    + reflexivity.
    + discriminate.
    + assert (remaining todos = List.length todos) by now apply H. lia.
  - apply someCompleted_cleared.
Qed.

Lemma completionPct_nonempty (t : Todo) (l : list Todo) :
  completionPct (t :: l) =
  Num (inject_Z (completedCount (t :: l))
       / inject_Z (Z.of_nat (List.length (t :: l)))).
Proof.
  unfold completionPct, js_div, completedCount.
  change (0 <? List.length (t :: l))%nat with true. cbv iota.
  destruct (Z.eqb_spec (Z.of_nat (List.length (t :: l))) 0) as [H|_];
    [simpl in H; lia | reflexivity].
Qed.

Lemma fraction_ends (a b : Z) :
  0 < b ->
  ((inject_Z a / inject_Z b == 0)%Q <-> a = 0) /\
  ((inject_Z a / inject_Z b == 1)%Q <-> a = b).
Proof.
  intros Hb. destruct b as [|p|p]; try lia.
  unfold Qeq, Qdiv, Qmult, Qinv, inject_Z. simpl. split; lia.
Qed.

(** X10.  The completion fraction is 0 exactly when no task is completed,
    and 1 exactly when there is a task and none is left to do; after
    Clear it is 0. *)
Theorem completionPct_ends (todos : list Todo) :
  (is_num (completionPct todos) 0 <-> someCompleted todos = false) /\
  (is_num (completionPct todos) 1 <->
   todos <> [] /\ remaining todos = 0%nat) /\
  is_num (completionPct (clearCompleted Clear todos)) 0.
Proof.
  assert (H0 : forall l, is_num (completionPct l) 0 <-> someCompleted l = false).
  { intros [|t l].
    - simpl. split; reflexivity.
    - rewrite completionPct_nonempty, someCompleted_remaining.
      unfold is_num, completedCount.
      destruct (fraction_ends
                  (Z.of_nat (List.length (t :: l)) - Z.of_nat (remaining (t :: l)))
                  (Z.of_nat (List.length (t :: l)))) as [E _];
        [simpl; lia|].
      rewrite E. lia. }
  split; [apply H0|]. split.
  - destruct todos as [|t l].
    + simpl. split; [intros H; discriminate H | intros [H _]; now elim H].
    + rewrite completionPct_nonempty. unfold is_num, completedCount.
      destruct (fraction_ends
                  (Z.of_nat (List.length (t :: l)) - Z.of_nat (remaining (t :: l)))
                  (Z.of_nat (List.length (t :: l)))) as [_ E];
        [simpl; lia|].
      rewrite E. split; [intros H; split; [discriminate | lia] | lia].
  - apply H0, someCompleted_cleared.
Qed.

(** ** The empty list message and the row in edit *)

Lemma filter_completed_nil (l : list Todo) :
  List.filter completed l = [] -> someCompleted l = false.
Proof.
  unfold someCompleted. induction l as [|t l IH]; simpl; [reflexivity|].
  destruct (completed t); simpl; [discriminate | exact IH].
Qed.

(** X11.  The message of the empty list tells the truth.  When no row is on
    display, "Add your first task above." is shown only if there is no task
    at all, "Nothing left to do!" only if no task is left to do, and
    "No completed tasks yet." only if no task is completed. *)
Theorem emptyMessage_truthful (toLowerCase : JsString -> JsString)
    (todos : list Todo) (filter : Filter.t) (search : JsString) :
  filtered toLowerCase todos filter search = [] ->
  (emptyMessage search filter = js "Add your first task above." ->
   todos = []) /\
  (emptyMessage search filter = js "Nothing left to do!" ->
   remaining todos = 0%nat) /\
  (emptyMessage search filter = js "No completed tasks yet." ->
   someCompleted todos = false).
Proof.
  intros Hempty. unfold emptyMessage.
  destruct (truthy search) eqn:Hs.
  - repeat split; intros H; vm_compute in H; discriminate H.
  - apply truthy_false in Hs. subst search.
    destruct (counters_shape toLowerCase todos) as [Hall [Hact Hcomp]].
    destruct filter; repeat split; intros H;
      try (vm_compute in H; discriminate H).
    + now rewrite Hall in Hempty.
    + rewrite Hact in Hempty. unfold remaining. now rewrite Hempty.
    + rewrite Hcomp in Hempty. now apply filter_completed_nil.
Qed.

Lemma emptyMessage_truthful_witness :
  filtered toLowerCase_ascii [walk_dog] Filter.active [] = [] /\
  emptyMessage [] Filter.active = js "Nothing left to do!" /\
  remaining [walk_dog] = 0%nat.
Proof.
  assert (He : filtered toLowerCase_ascii [walk_dog] Filter.active [] = [])
    by reflexivity.
  assert (Hm : emptyMessage [] Filter.active = js "Nothing left to do!")
    by reflexivity.
  split; [exact He|]. split; [exact Hm|].
  exact (proj1 (proj2 (emptyMessage_truthful toLowerCase_ascii [walk_dog]
                         Filter.active [] He)) Hm).
Defined.

Lemma isEditing_absent (eid : JsString) (l : list Todo) :
  ~ In eid (ids l) -> List.filter (isEditing (Some eid)) l = [].
Proof.
  induction l as [|t l IH]; simpl; intros H; [reflexivity|].
  destruct (str_eq eid (id t)) eqn:E.
  - apply str_eq_true in E. exfalso. apply H. left. now symmetry.
  - apply IH. tauto.
Qed.

Lemma isEditing_once (editingId : option JsString) (l : list Todo) :
  NoDup (ids l) ->
  (List.length (List.filter (isEditing editingId) l) <= 1)%nat.
Proof.
  destruct editingId as [eid|].
  - induction l as [|t l IH]; simpl; intros H; [lia|].
    apply NoDup_cons_iff in H as [Hn Hu].
    destruct (str_eq eid (id t)) eqn:E; [|now apply IH].
    apply str_eq_true in E. subst eid.
    simpl. now rewrite (isEditing_absent _ _ Hn).
  - intros _. induction l as [|t l IH]; simpl; [lia | exact IH].
Qed.

(** X12.  When the ids in the list are pairwise distinct, at most one row on
    display is in edit. *)
Theorem one_row_in_edit (toLowerCase : JsString -> JsString)
    (todos : list Todo) (filter : Filter.t) (search : JsString)
    (editingId : option JsString) :
  NoDup (ids todos) ->
  (List.length
     (List.filter (isEditing editingId)
                  (filtered toLowerCase todos filter search)) <= 1)%nat.
Proof.
  intros H. apply isEditing_once. unfold filtered.
  now apply unique_ids_filter.
Qed.

Lemma one_row_in_edit_witness :
  NoDup (ids [buy_milk; walk_dog]) /\
  (List.length
     (List.filter (isEditing (Some (js "2")))
        (filtered toLowerCase_ascii [buy_milk; walk_dog] Filter.all []))
   <= 1)%nat.
Proof.
  assert (Hu : NoDup (ids [buy_milk; walk_dog])).
  { vm_compute. repeat constructor; simpl; intuition discriminate. }
  split; [exact Hu|].
  exact (one_row_in_edit toLowerCase_ascii [buy_milk; walk_dog] Filter.all []
           (Some (js "2")) Hu).
Defined.

(** X13.  Under "active", ticking a row takes that row off the display and
    leaves the other rows as they are, when ids are not repeated. *)
Theorem toggle_leaves_active_view (toLowerCase : JsString -> JsString)
    (todos : list Todo) (search : JsString) (item : Todo) :
  NoDup (ids todos) ->
  In item (filtered toLowerCase todos Filter.active search) ->
  exists v1 v2,
    filtered toLowerCase todos Filter.active search = v1 ++ item :: v2 /\
    filtered toLowerCase (toggleTodo (id item) todos) Filter.active search
      = v1 ++ v2.
Proof.
  intros Hu Hin. unfold filtered in Hin. apply filter_In in Hin as [Hin Hp].
  apply in_split in Hin as [l1 [l2 ->]].
  rewrite (toggleTodo_at _ _ _ Hu).
  exists (filtered toLowerCase l1 Filter.active search),
         (filtered toLowerCase l2 Filter.active search).
  unfold filtered. rewrite !filter_app. simpl.
  cbv zeta in Hp. rewrite Hp.
  apply andb_true_iff in Hp as [Hc _]. apply negb_true_iff in Hc.
  rewrite Hc. simpl. split; reflexivity.
Qed.

Lemma toggle_leaves_active_view_witness :
  NoDup (ids [buy_milk; walk_dog]) /\
  In buy_milk (filtered toLowerCase_ascii [buy_milk; walk_dog]
                 Filter.active (js "milk")) /\
  exists v1 v2,
    filtered toLowerCase_ascii [buy_milk; walk_dog] Filter.active (js "milk")
      = v1 ++ buy_milk :: v2 /\
    filtered toLowerCase_ascii (toggleTodo (id buy_milk) [buy_milk; walk_dog])
      Filter.active (js "milk") = v1 ++ v2.
Proof.
  assert (Hu : NoDup (ids [buy_milk; walk_dog])).
  { vm_compute. repeat constructor; simpl; intuition discriminate. }
  assert (Hin : In buy_milk (filtered toLowerCase_ascii [buy_milk; walk_dog]
                               Filter.active (js "milk")))
    by (vm_compute; tauto).
  split; [exact Hu|]. split; [exact Hin|].
  exact (toggle_leaves_active_view toLowerCase_ascii [buy_milk; walk_dog]
           (js "milk") buy_milk Hu Hin).
Defined.

(** ** The component as a whole *)

(** What an event does to the list is what its operation does. *)
Lemma handle_todos (toLowerCase : JsString -> JsString)
    (e : TodoApp.Event) (s : TodoApp.State) :
  TodoApp.todos (TodoApp.handle toLowerCase e s) =
  match TodoApp.op_of toLowerCase s e with
  | Some o => apply o (TodoApp.todos s)
  | None => TodoApp.todos s
  end.
Proof.
  destruct s as [l inp f p q eid txt].
  destruct e as [t|n1 n2|p'|t| |f'|row|row|row|row t|row|pressed];
    cbn [TodoApp.handle TodoApp.op_of].
  - reflexivity.
  - unfold TodoApp.addTodo, apply, addTodo. simpl.
    now destruct (truthy (trim inp)).
  - reflexivity.
  - reflexivity.
  - simpl. now destruct (truthy q).
  - reflexivity.
  - now destruct (nth_error _ row).
  - now destruct (nth_error _ row).
  - destruct (nth_error _ row) as [item|]; [|reflexivity].
    now destruct (isEditing _ item).
  - destruct (nth_error _ row) as [item|]; [|reflexivity].
    now destruct (isEditing _ item).
  - destruct (nth_error _ row) as [item|]; [|reflexivity].
    destruct eid as [eid|]; simpl; [|reflexivity].
    destruct (str_eq eid (id item)); [|reflexivity].
    unfold TodoApp.saveEdit, saveEdit. simpl.
    destruct (truthy eid); [|reflexivity].
    now destruct (truthy (trim txt)).
  - simpl. destruct (someCompleted l); now destruct pressed.
Qed.

(** X14.  The list of the component is a list of the store.  After any
    events, from any state, [todos] is the outcome of the operations the
    events amount to, run on the list of that state. *)
Theorem screen_runs_store (toLowerCase : JsString -> JsString)
    (events : list TodoApp.Event) (s : TodoApp.State) :
  TodoApp.todos (TodoApp.run_from toLowerCase s events) =
  run_from (TodoApp.todos s) (TodoApp.trace toLowerCase s events).
Proof.
  revert s. induction events as [|e events IH]; intros s; [reflexivity|].
  cbn [TodoApp.run_from TodoApp.trace fold_left].
  fold (TodoApp.run_from toLowerCase (TodoApp.handle toLowerCase e s) events).
  rewrite IH, (handle_todos toLowerCase e s).
  now destruct (TodoApp.op_of toLowerCase s e).
Qed.

Lemma handle_keeps_tidy (toLowerCase : JsString -> JsString)
    (e : TodoApp.Event) (s : TodoApp.State) :
  Forall tidy (TodoApp.todos s) ->
  Forall tidy (TodoApp.todos (TodoApp.handle toLowerCase e s)).
Proof.
  intros H. rewrite handle_todos.
  destruct (TodoApp.op_of toLowerCase s e); [now apply apply_tidy | exact H].
Qed.

Lemma handle_editingId (toLowerCase : JsString -> JsString)
    (e : TodoApp.Event) (s : TodoApp.State) :
  Forall tidy (TodoApp.todos s) ->
  TodoApp.editingId s <> Some [] ->
  TodoApp.editingId (TodoApp.handle toLowerCase e s) <> Some [].
Proof.
  intros Ht He.
  destruct e as [t|n1 n2|p'|t| |f'|row|row|row|row t|row|pressed];
    cbn [TodoApp.handle]; try exact He.
  - unfold TodoApp.addTodo.
    now destruct (negb (truthy (trim (TodoApp.input s)))).
  - now destruct (truthy (TodoApp.search s)).
  - now destruct (nth_error _ row).
  - now destruct (nth_error _ row).
  - destruct (nth_error _ row) as [item|] eqn:Hrow; [|exact He].
    destruct (isEditing _ item); [exact He|]. simpl.
    apply nth_error_In in Hrow. unfold TodoApp.data, filtered in Hrow.
    apply filter_In in Hrow as [Hin _].
    rewrite Forall_forall in Ht. destruct (Ht item Hin) as [Hid _].
    congruence.
  - destruct (nth_error _ row) as [item|]; [|exact He].
    now destruct (isEditing _ item).
  - destruct (nth_error _ row) as [item|]; [|exact He].
    destruct (isEditing _ item); [|exact He].
    unfold TodoApp.saveEdit.
    destruct (TodoApp.editingId s) as [eid|] eqn:E; [|now rewrite E].
    destruct (truthy eid); [simpl; discriminate | now rewrite E].
  - destruct (someCompleted (TodoApp.todos s)); [|exact He].
    now destruct pressed.
Qed.

(** X15.  Whatever the user does from the first render, every task has an
    id and a text that are not empty, the text has no white space at its
    ends, and [editingId] is never the empty string. *)
Theorem screen_invariant (toLowerCase : JsString -> JsString)
    (events : list TodoApp.Event) :
  Forall tidy (TodoApp.todos (TodoApp.run toLowerCase events)) /\
  TodoApp.editingId (TodoApp.run toLowerCase events) <> Some [].
Proof.
  unfold TodoApp.run.
  assert (H0 : Forall tidy (TodoApp.todos TodoApp.init) /\
               TodoApp.editingId TodoApp.init <> Some [])
    by (split; [constructor | discriminate]).
  revert H0. generalize TodoApp.init.
  induction events as [|e events IH]; intros s [Ht He]; [now split|].
  apply IH. split.
  - now apply handle_keeps_tidy.
  - now apply handle_editingId.
Qed.

(** X16.  A second submit right after the first adds nothing: the first one
    has emptied the input. *)
Theorem addTodo_twice (n1 n2 n3 n4 : Z) (s : TodoApp.State) :
  TodoApp.addTodo n3 n4 (TodoApp.addTodo n1 n2 s) = TodoApp.addTodo n1 n2 s.
Proof.
  unfold TodoApp.addTodo.
  destruct (negb (truthy (trim (TodoApp.input s)))) eqn:E.
  - now rewrite E.
  - reflexivity.
Qed.

(** X17.  A second [saveEdit] right after the first changes nothing, as when
    submitting the text input also makes it lose focus. *)
Theorem saveEdit_twice (s : TodoApp.State) :
  TodoApp.saveEdit (TodoApp.saveEdit s) = TodoApp.saveEdit s.
Proof.
  unfold TodoApp.saveEdit.
  destruct (TodoApp.editingId s) as [eid|] eqn:E.
  - destruct (truthy eid) eqn:Et.
    + reflexivity.
    + now rewrite E, Et.
  - now rewrite E.
Qed.

Lemma with_text_same (t : Todo) : with_text t (text t) = t.
Proof. now destruct t. Qed.

(** X18.  Opening a task of the list for edit and saving at once, with the
    text untouched, leaves the list as it was and closes the edit, when
    the task is tidy and ids are not repeated. *)
Theorem startEdit_saveEdit (item : Todo) (s : TodoApp.State) :
  NoDup (ids (TodoApp.todos s)) ->
  In item (TodoApp.todos s) ->
  tidy item ->
  TodoApp.todos (TodoApp.saveEdit (TodoApp.startEdit item s))
    = TodoApp.todos s /\
  TodoApp.editingId (TodoApp.saveEdit (TodoApp.startEdit item s)) = None.
Proof.
  intros Hu Hin [Hid [Htext Htrim]].
  unfold TodoApp.saveEdit, TodoApp.startEdit. simpl.
  apply truthy_true in Hid. rewrite Hid, Htrim.
  apply truthy_true in Htext. rewrite Htext. simpl.
  split; [|reflexivity].
  rewrite <- (map_id (TodoApp.todos s)) at 2. apply map_ext_in.
  intros t Ht. destruct (str_eq (id t) (id item)) eqn:E; [|reflexivity].
  apply str_eq_true in E.
  rewrite (unique_id_same _ _ _ Hu Ht Hin E). apply with_text_same.
Qed.

Lemma startEdit_saveEdit_witness :
  NoDup (ids [buy_milk; walk_dog]) /\
  In walk_dog [buy_milk; walk_dog] /\ tidy walk_dog /\
  TodoApp.todos
    (TodoApp.saveEdit
       (TodoApp.startEdit walk_dog
          (TodoApp.setTodos (fun _ => [buy_milk; walk_dog]) TodoApp.init)))
    = [buy_milk; walk_dog].
Proof.
  assert (Hu : NoDup (ids [buy_milk; walk_dog])).
  { vm_compute. repeat constructor; simpl; intuition discriminate. }
  assert (Hin : In walk_dog [buy_milk; walk_dog]) by (simpl; tauto).
  assert (Ht : tidy walk_dog).
  { repeat split; vm_compute; discriminate || reflexivity. }
  split; [exact Hu|]. split; [exact Hin|]. split; [exact Ht|].
  exact (proj1 (startEdit_saveEdit walk_dog
                  (TodoApp.setTodos (fun _ => [buy_milk; walk_dog])
                                    TodoApp.init)
                  Hu Hin Ht)).
Defined.

Example screen_session :
  TodoApp.todos
    (TodoApp.run toLowerCase_ascii
       [TodoApp.ChangeInput (js " Buy milk ");
        TodoApp.SubmitInput 1 1;
        TodoApp.SubmitInput 2 2;
        TodoApp.ChangeInput (js "Walk dog");
        TodoApp.PressPriority low;
        TodoApp.SubmitInput 2 2;
        TodoApp.PressToggle 0;
        TodoApp.LongPress 1;
        TodoApp.ChangeEditText 1 (js "  ");
        TodoApp.EndEdit 1;
        TodoApp.PressFilter Filter.completed;
        TodoApp.PressDelete 1])
  = [walk_dog; buy_milk].
Proof. reflexivity. Qed.
